(** * Range extraction from a workbook sheet (src/util/excel.py)

    A shallow embedding of [extract_cells_by_column_range] and
    [extract_cells_by_column_letters], followed by the properties of the
    extracted table and of the cell-address mapping.

    Python integers are unbounded, so they are [Z].  The dictionary
    [cell_mapping] is a [gmap string (Z * Z)]; raising an exception is the
    left injection of a sum. *)

From Stdlib Require Import ZArith String Ascii List Lia.
From stdpp Require Import base tactics option list numbers strings pretty gmap.

Local Open Scope Z_scope.

(** * The program *)

(** ** Values and exceptions *)

(** The value held by a cell.  The code only ever asks whether a value is
    [None]; the payloads are carried through untouched. *)
Inductive value : Type :=
  | VNone
  | VText (s : string)
  | VNumber (n : Z)
  | VBool (b : bool)
  | VDateTime (t : Z).

#[global] Instance value_eq_dec : EqDecision value.
Proof. solve_decision. Defined.

(** [cell_value is not None] *)
Definition is_not_None (v : value) : bool :=
  match v with VNone => false | _ => true end.

(** The exception classes that can travel through the two functions, each
    with its message, which is what [str(e)] gives.  [OtherError cls msg]
    stands for any class that is neither [FileNotFoundError] nor
    [ValueError] (bad archive, permissions, ...). *)
Inductive exn : Type :=
  | FileNotFoundError (msg : string)
  | ValueError (msg : string)
  | OtherError (cls msg : string).

Definition result (A : Type) : Type := (exn + A)%type.

Definition raise {A} (e : exn) : result A := inl e.
Definition ret {A} (a : A) : result A := inr a.
Definition bind {A B} (x : result A) (k : A → result B) : result B :=
  match x with
  | inl e => inl e
  | inr a => k a
  end.

Notation "'do' x <- e ; k" := (bind e (λ x, k))
  (at level 10, x pattern, e at level 100, k at level 200).

(** A [for] loop whose body may raise: the state is threaded through the
    items in order and the first exception aborts the loop. *)
Fixpoint for_each {A S} (items : list A) (body : S → A → result S) (st : S)
  : result S :=
  match items with
  | [] => ret st
  | x :: rest => do st' <- body st x; for_each rest body st'
  end.

(** [range(a, b)] *)
Definition py_range (a b : Z) : list Z := seqZ a (b - a).

(** ** The spreadsheet collaborators *)

(** Modelled from the spec: the sheet of the workbook reader, which is not
    part of the repository.  Section 3: a grid of cells addressable by
    (row, column), with a known maximum populated row; a cell holds a value
    or is absent. *)
Record worksheet : Type := Worksheet {
  max_row : Z;
  cell_value : Z → Z → value
}.

(** Modelled from the spec: [worksheet.cell(row=, column=).value] of the
    workbook reader.  Section 3: cells are 1-indexed; section 4.1: rows
    beyond the populated area yield absent values, not an error.  An index
    below one is outside the grid, and the reader raises [ValueError]. *)
Definition ws_cell (ws : worksheet) (row column : Z) : result value :=
  if bool_decide (row < 1 ∨ column < 1)
  then raise (ValueError "Row or column values must be at least 1")
  else ret (cell_value ws row column).

(** Modelled from the spec: the workbook of the reader.  Section 3: it owns
    zero or more sheets, addressable by name; here in tab order, each with
    its title. *)
Record workbook : Type := Workbook {
  sheets : list (string * worksheet)
}.

(** [workbook.sheetnames] is the list of titles; [workbook[key]] is the
    first sheet with that title, and [KeyError] when there is none. *)
Definition sheetnames (wb : workbook) : list string := (sheets wb).*1.

Definition wb_getitem (wb : workbook) (key : string) : result worksheet :=
  match list_find (λ s, s.1 = key) (sheets wb) with
  | Some (_, s) => ret s.2
  | None =>
      raise (OtherError "KeyError" ("Worksheet " +:+ key +:+ " does not exist."))
  end.

(** [chr(n)] for a code below 256. *)
Definition chr (n : Z) : ascii := ascii_of_nat (Z.to_nat n).

(** Modelled from the spec: the column-number-to-letter conversion of the
    spreadsheet library, which is not part of the repository.  Glossary:
    the base-26 alphabetic column designator (A, B, ..., Z, AA, ...).  The
    loop is a repeated [divmod] by 26 that borrows on an exact division;
    letters are appended least significant first and reversed at the end. *)
Fixpoint column_letters_loop (fuel : nat) (col_idx : Z) (letters : list ascii)
  : list ascii :=
  match fuel with
  | O => letters
  | S fuel' =>
      if bool_decide (0 < col_idx) then
        let q := col_idx `div` 26 in
        let remainder := col_idx `mod` 26 in
        if bool_decide (remainder = 0)
        then column_letters_loop fuel' (q - 1) (letters ++ [chr (26 + 64)])
        else column_letters_loop fuel' q (letters ++ [chr (remainder + 64)])
      else letters
  end.

(** [get_column_letter(col_idx)]: the library serves columns 1 .. 18278,
    "A" .. "ZZZ", and raises [ValueError] outside. *)
Definition get_column_letter (col_idx : Z) : result string :=
  if bool_decide (1 ≤ col_idx ≤ 18278)
  then ret (string_of_list_ascii
              (rev (column_letters_loop (Z.to_nat col_idx) col_idx [])))
  else raise (ValueError ("Invalid column index " +:+ pretty col_idx)).

(** [repr] of a list of strings, given [repr] of one string. *)
Fixpoint join (sep : string) (l : list string) : string :=
  match l with
  | [] => ""
  | [x] => x
  | x :: rest => x +:+ sep +:+ join sep rest
  end.

Definition repr_list (repr_str : string → string) (l : list string) : string :=
  "[" +:+ join ", " (repr_str <$> l) +:+ "]".

Abbreviation mapping := (gmap string (Z * Z)).

(** ** The two functions *)

Section Extract.

(** [load_workbook]: the file system seen through the workbook reader. *)
Variable load_workbook : string → result workbook.
(** [column_index_from_string] of the spreadsheet library. *)
Variable column_index_from_string : string → result Z.
(** [repr] on a string. *)
Variable repr_str : string → string.

(** One pass of the inner loop, lines 77-86. *)
Definition scan_cell (worksheet : worksheet)
    (start_column row_idx data_row_index : Z)
    (st : list value * bool * mapping) (col_idx : Z)
  : result (list value * bool * mapping) :=
  let '(row_data, row_has_data, cell_mapping) := st in
  do cell_value <- ws_cell worksheet row_idx col_idx;
  let row_data := row_data ++ [cell_value] in
  do letters <- get_column_letter col_idx;
  let cell_address := letters +:+ pretty row_idx in
  let cell_mapping :=
    <[cell_address := (data_row_index, col_idx - start_column)]> cell_mapping in
  let row_has_data := if is_not_None cell_value then true else row_has_data in
  ret (row_data, row_has_data, cell_mapping).

(** One pass of the outer loop, lines 73-91. *)
Definition scan_row (worksheet : worksheet)
    (start_column end_column : Z) (include_empty : bool)
    (st : list (list value) * mapping * Z) (row_idx : Z)
  : result (list (list value) * mapping * Z) :=
  let '(extracted_data, cell_mapping, data_row_index) := st in
  do (row_data, row_has_data, cell_mapping) <-
    for_each (py_range start_column (end_column + 1))
             (scan_cell worksheet start_column row_idx data_row_index)
             ([], false, cell_mapping);
  if row_has_data || include_empty
  then ret (extracted_data ++ [row_data], cell_mapping, data_row_index + 1)
  else ret (extracted_data, cell_mapping, data_row_index).

(** [extract_cells_by_column_range], lines 10-95.  [workbook.close()] on
    line 93 has no effect on the result. *)
Definition extract_cells_by_column_range
    (file_path sheet_name : string) (start_column end_column start_row : Z)
    (end_row : option Z) (include_empty : bool)
  : result (list (list value) * mapping) :=
  do workbook <-
    match load_workbook file_path with
    | inl (FileNotFoundError _) =>
        raise (FileNotFoundError ("Excel file not found: " +:+ file_path))
    | r => r
    end;
  if bool_decide (sheet_name ∉ sheetnames workbook) then
    raise (ValueError ("Sheet '" +:+ sheet_name
                       +:+ "' not found. Available sheets: "
                       +:+ repr_list repr_str (sheetnames workbook)))
  else
  do worksheet <- wb_getitem workbook sheet_name;
  if bool_decide (start_column < 1 ∨ end_column < start_column) then
    raise (ValueError ("Invalid column range: start_column="
                       +:+ pretty start_column
                       +:+ ", end_column=" +:+ pretty end_column))
  else
  let end_row :=
    match end_row with
    | None => max_row worksheet
    | Some end_row => end_row
    end in
  do (extracted_data, cell_mapping, _) <-
    for_each (py_range start_row (end_row + 1))
             (scan_row worksheet start_column end_column include_empty)
             ([], ∅, 0);
  ret (extracted_data, cell_mapping).

(** [extract_cells_by_column_letters], lines 98-143: both conversions sit
    in one [try], the delegated call is outside it. *)
Definition extract_cells_by_column_letters
    (file_path sheet_name start_column end_column : string) (start_row : Z)
    (end_row : option Z) (include_empty : bool)
  : result (list (list value) * mapping) :=
  do (start_col_num, end_col_num) <-
    match
      (do start_col_num <- column_index_from_string start_column;
       do end_col_num <- column_index_from_string end_column;
       ret (start_col_num, end_col_num))
    with
    | inl (ValueError e) =>
        raise (ValueError ("Invalid column letters: " +:+ e))
    | r => r
    end;
  extract_cells_by_column_range
    file_path sheet_name start_col_num end_col_num start_row end_row
    include_empty.

End Extract.

(** ** Cell addresses *)

(** The letters of a column and the address of a cell, as the f-string on
    line 82 builds them when [get_column_letter] does not raise. *)
Definition column_name (col_idx : Z) : string :=
  string_of_list_ascii (rev (column_letters_loop (Z.to_nat col_idx) col_idx [])).

Definition cell_address_of (col_idx row_idx : Z) : string :=
  column_name col_idx +:+ pretty row_idx.

Definition code (c : ascii) : Z := Z.of_nat (nat_of_ascii c).
Definition is_upper (c : ascii) : Prop := 65 ≤ code c ≤ 90.
Definition is_digit (c : ascii) : Prop := 48 ≤ code c ≤ 57.

(** The number a run of letters stands for, least significant first. *)
Definition lsd_value (letters : list ascii) : Z :=
  foldr (λ c v, (code c - 64) + 26 * v) 0 letters.

(** ** What the two loops compute *)

(** The values of one sheet row over the requested columns. *)
Definition row_values (ws : worksheet) (start_column end_column row_idx : Z)
  : list value :=
  cell_value ws row_idx <$> py_range start_column (end_column + 1).

(** The test of line 89. *)
Definition row_kept (ws : worksheet) (start_column end_column : Z)
    (include_empty : bool) (row_idx : Z) : bool :=
  existsb is_not_None (row_values ws start_column end_column row_idx)
  || include_empty.

(** The dictionary writes of one row, in the order they happen. *)
Definition row_entries (start_column row_idx data_row_index : Z)
    (cols : list Z) : list (string * (Z * Z)) :=
  (λ c, (cell_address_of c row_idx, (data_row_index, c - start_column)))
    <$> cols.

(** The dictionary writes of a run of rows, starting with the kept-row
    counter at [data_row_index]. *)
Fixpoint table_entries (ws : worksheet) (start_column end_column : Z)
    (include_empty : bool) (rows : list Z) (data_row_index : Z)
  : list (string * (Z * Z)) :=
  match rows with
  | [] => []
  | r :: rest =>
      row_entries start_column r data_row_index
                  (py_range start_column (end_column + 1))
      ++ table_entries ws start_column end_column include_empty rest
           (if row_kept ws start_column end_column include_empty r
            then data_row_index + 1 else data_row_index)
  end.

(** [d[k] = v] for each pair in turn. *)
Definition record (m : mapping) (entries : list (string * (Z * Z))) : mapping :=
  foldl (λ m kv, <[kv.1 := kv.2]> m) m entries.

(** The cells the library accepts: [cell] wants indices from one, and
    [get_column_letter] columns up to ZZZ. *)
Definition cell_ok (row_idx col_idx : Z) : Prop :=
  1 ≤ row_idx ∧ 1 ≤ col_idx ≤ 18278.

(** Line 65: the last row scanned. *)
Definition effective_end_row (ws : worksheet) (end_row : option Z) : Z :=
  match end_row with
  | None => max_row ws
  | Some end_row => end_row
  end.

(** The kept-row counter when row [row_idx] is reached: the number of rows
    kept among those scanned before it. *)
Definition counter_at (ws : worksheet) (start_column end_column : Z)
    (include_empty : bool) (start_row row_idx : Z) : Z :=
  Z.of_nat (length (filter (λ r, row_kept ws start_column end_column
                                   include_empty r)
                           (py_range start_row row_idx))).

(** ** Concrete collaborators and inputs used in the examples *)

(** A sheet whose populated area is the given rows, starting at A1; every
    other cell is absent. *)
Definition sheet_of_rows (rows : list (list value)) : worksheet :=
  {| max_row := Z.of_nat (length rows);
     cell_value := λ row column,
       if bool_decide (1 ≤ row ∧ 1 ≤ column) then
         default VNone
           (rows !! Z.to_nat (row - 1) ≫= λ r, r !! Z.to_nat (column - 1))
       else VNone |}.

(** The sheet of the specification's scenario: a header row, a data row and
    an empty row. *)
Definition scenario_sheet : worksheet :=
  sheet_of_rows [ [VText "H1"; VText "H2"];
                  [VNumber 1; VNumber 2];
                  [VNone; VNone] ].

Definition scenario_workbook : workbook :=
  {| sheets := [("Sheet1", scenario_sheet); ("Notes", sheet_of_rows [])] |}.

(** A file system with one workbook, one file that is not a workbook, and
    nothing else. *)
Definition scenario_files (file_path : string) : result workbook :=
  if bool_decide (file_path = "data.xlsx") then ret scenario_workbook
  else if bool_decide (file_path = "notes.xlsx")
  then raise (OtherError "BadZipFile" "File is not a zip file")
  else raise (FileNotFoundError
                ("[Errno 2] No such file or directory: '" +:+ file_path +:+ "'")).

(** [repr] of a string without quotes or escapes. *)
Definition quote_repr (s : string) : string := "'" +:+ s +:+ "'".

(** [str.upper()] on one ASCII character. *)
Definition upper (c : ascii) : ascii :=
  let n := nat_of_ascii c in
  if bool_decide (97 ≤ n ≤ 122)%nat then ascii_of_nat (n - 32) else c.

Fixpoint letters_value (acc : Z) (s : string) : option Z :=
  match s with
  | EmptyString => Some acc
  | String c rest =>
      let n := Z.of_nat (nat_of_ascii (upper c)) in
      if bool_decide (65 ≤ n ≤ 90)
      then letters_value (acc * 26 + (n - 64)) rest
      else None
  end.

(** Modelled from the spec: the letter-to-number conversion of the
    spreadsheet library, which is not part of the repository.  Section 4.2:
    base 26, letters A-Z, case-insensitive, no zero column; an empty string
    or one with a non-letter is not a column designator. *)
Definition letters_to_index (s : string) : result Z :=
  match s with
  | EmptyString => raise (ValueError (s +:+ " is not a valid column name"))
  | _ =>
      match letters_value 0 s with
      | Some n => ret n
      | None => raise (ValueError (s +:+ " is not a valid column name"))
      end
  end.

Definition by_range :=
  extract_cells_by_column_range scenario_files quote_repr.
Definition by_letters :=
  extract_cells_by_column_letters scenario_files letters_to_index quote_repr.

Definition scenario_table : list (list value) :=
  [ [VText "H1"; VText "H2"]; [VNumber 1; VNumber 2] ].

Definition scenario_mapping : mapping :=
  list_to_map [ ("A1", (0, 0)); ("B1", (0, 1));
                ("A2", (1, 0)); ("B2", (1, 1));
                ("A3", (2, 0)); ("B3", (2, 1)) ].

(** A sheet with one column: an empty text, an absent value, a zero and a
    false. *)
Definition falsy_sheet : worksheet :=
  sheet_of_rows [ [VText ""]; [VNone]; [VNumber 0]; [VBool false] ].

Definition falsy_files (file_path : string) : result workbook :=
  ret {| sheets := [("Sheet1", falsy_sheet)] |}.

(** * Properties *)

(** ** Strings and cell addresses *)

Lemma string_app_assoc (s t u : string) : (s +:+ t) +:+ u = s +:+ t +:+ u.
Proof.
  induction s as [|c s IH]; [done|].
  change (String c ((s +:+ t) +:+ u) = String c (s +:+ t +:+ u)).
  by rewrite IH.
Qed.

Lemma string_app_nil_r (s : string) : s +:+ "" = s.
Proof.
  induction s as [|c s IH]; [done|].
  change (String c (s +:+ "") = String c s). by rewrite IH.
Qed.

Lemma list_ascii_of_string_app (s t : string) :
  list_ascii_of_string (s +:+ t)
  = list_ascii_of_string s ++ list_ascii_of_string t.
Proof. induction s as [|c s IH]; simpl; [done | by rewrite IH]. Qed.

Lemma join_elem sep (l : list string) x :
  x ∈ l → ∃ pre post, join sep l = pre +:+ x +:+ post.
Proof.
  induction l as [|y l IH]; intros Hin; [by apply elem_of_nil in Hin|].
  apply elem_of_cons in Hin as [->|Hin].
  - destruct l as [|z l].
    + exists "", "". change (y = y +:+ ""). by rewrite string_app_nil_r.
    + by exists "", (sep +:+ join sep (z :: l)).
  - destruct (IH Hin) as (pre & post & Hj).
    destruct l as [|z l]; [by apply elem_of_nil in Hin|].
    exists (y +:+ sep +:+ pre), post.
    change (join sep (y :: z :: l)) with (y +:+ sep +:+ join sep (z :: l)).
    by rewrite Hj, !string_app_assoc.
Qed.

Lemma code_chr n : 0 ≤ n < 256 → code (chr n) = n.
Proof.
  intros Hn. unfold code, chr.
  rewrite nat_ascii_embedding by lia. lia.
Qed.

Lemma column_letters_loop_app fuel :
  ∀ n acc, column_letters_loop fuel n acc = acc ++ column_letters_loop fuel n [].
Proof.
  induction fuel as [|fuel IH]; intros n acc; simpl.
  - by rewrite app_nil_r.
  - repeat case_bool_decide; try by rewrite app_nil_r.
    + rewrite IH, (IH _ [_]). by rewrite <-app_assoc.
    + rewrite IH, (IH _ [_]). by rewrite <-app_assoc.
Qed.

(** The loop is a bijective base-26 numeral of its argument: enough fuel is
    always given, and only capital letters come out. *)
Lemma column_letters_loop_value fuel :
  ∀ n, 0 ≤ n ≤ Z.of_nat fuel →
    lsd_value (column_letters_loop fuel n []) = n
    ∧ Forall is_upper (column_letters_loop fuel n []).
Proof.
  induction fuel as [|fuel IH]; intros n Hn; simpl.
  - split; [simpl; lia | constructor].
  - case_bool_decide as Hpos; [|split; [simpl; lia | constructor]].
    pose proof (Z.div_mod n 26 ltac:(lia)) as Hdm.
    pose proof (Z.mod_pos_bound n 26 ltac:(lia)) as Hmod.
    case_bool_decide as Hrem; rewrite column_letters_loop_app.
    + destruct (IH (n `div` 26 - 1) ltac:(lia)) as [Hv Hup].
      split.
      * simpl. rewrite Hv, code_chr by lia. lia.
      * constructor; [|done]. unfold is_upper. rewrite code_chr by lia. lia.
    + destruct (IH (n `div` 26) ltac:(lia)) as [Hv Hup].
      split.
      * simpl. rewrite Hv, code_chr by lia. lia.
      * constructor; [|done]. unfold is_upper. rewrite code_chr by lia. lia.
Qed.

Lemma column_name_letters n :
  0 ≤ n → Forall is_upper (list_ascii_of_string (column_name n)).
Proof.
  intros Hn. unfold column_name.
  rewrite list_ascii_of_string_of_list_ascii.
  apply Forall_rev, column_letters_loop_value. lia.
Qed.

Lemma column_name_inj a b :
  0 ≤ a → 0 ≤ b → column_name a = column_name b → a = b.
Proof.
  intros Ha Hb Heq. unfold column_name in Heq.
  apply (f_equal list_ascii_of_string) in Heq.
  rewrite !list_ascii_of_string_of_list_ascii in Heq.
  apply (f_equal (@rev ascii)) in Heq. rewrite !rev_involutive in Heq.
  destruct (column_letters_loop_value (Z.to_nat a) a ltac:(lia)) as [<- _].
  destruct (column_letters_loop_value (Z.to_nat b) b ltac:(lia)) as [<- _].
  by rewrite Heq.
Qed.

Lemma get_column_letter_inr col_idx s :
  get_column_letter col_idx = inr s ↔
  1 ≤ col_idx ≤ 18278 ∧ s = column_name col_idx.
Proof.
  unfold get_column_letter, column_name, ret, raise.
  case_bool_decide; split; intros H'; simplify_eq; try done.
  - by destruct H' as [_ ->].
  - by destruct H'.
Qed.

(** Decimal numerals are made of digits. *)
Lemma pretty_N_char_digit x : is_digit (pretty_N_char x).
Proof.
  unfold pretty_N_char, is_digit. repeat case_match; vm_compute; done.
Qed.

Lemma pretty_N_go_digits x :
  ∀ s, Forall is_digit (list_ascii_of_string s) →
       Forall is_digit (list_ascii_of_string (pretty_N_go x s)).
Proof.
  induction (N.lt_wf_0 x) as [x _ IH]; intros s Hs.
  destruct (decide (x = 0)%N) as [->|Hx]; [by rewrite pretty_N_go_0|].
  rewrite pretty_N_go_step by lia.
  apply IH; [apply N.div_lt; lia|].
  simpl. constructor; [apply pretty_N_char_digit | done].
Qed.

Lemma pretty_Z_digits (n : Z) :
  0 ≤ n → Forall is_digit (list_ascii_of_string (pretty n)).
Proof.
  intros Hn. destruct n as [|p|p]; [| |lia].
  - repeat constructor; vm_compute; done.
  - unfold pretty, pretty_Z, pretty, pretty_positive, pretty, pretty_N.
    case_decide; [done|]. apply pretty_N_go_digits. constructor.
Qed.

(** A run of letters followed by a run of digits splits in one way only. *)
Lemma letters_digits_split (l1 l2 d1 d2 : list ascii) :
  Forall is_upper l1 → Forall is_upper l2 →
  Forall is_digit d1 → Forall is_digit d2 →
  l1 ++ d1 = l2 ++ d2 → l1 = l2 ∧ d1 = d2.
Proof.
  intros Hl1; revert l2.
  induction Hl1 as [|c l1 Hc _ IH]; intros l2 Hl2 Hd1 Hd2 Heq.
  - destruct Hl2 as [|c' l2 Hc' _]; [done|]. simpl in Heq. subst d1.
    apply Forall_cons in Hd1 as [Hd _]. unfold is_upper, is_digit in *. lia.
  - destruct Hl2 as [|c' l2 Hc' Hl2]; simpl in Heq.
    + subst d2. apply Forall_cons in Hd2 as [Hd _].
      unfold is_upper, is_digit in *. lia.
    + injection Heq as -> Heq.
      destruct (IH l2 Hl2 Hd1 Hd2 Heq) as [-> ->]. done.
Qed.

(** Distinct cells of the scanned window have distinct addresses. *)
Lemma cell_address_of_inj c r c' r' :
  0 ≤ c → 0 ≤ c' → 0 ≤ r → 0 ≤ r' →
  cell_address_of c r = cell_address_of c' r' → c = c' ∧ r = r'.
Proof.
  intros Hc Hc' Hr Hr' Heq. unfold cell_address_of in Heq.
  apply (f_equal list_ascii_of_string) in Heq.
  rewrite !list_ascii_of_string_app in Heq.
  apply letters_digits_split in Heq as [Hl Hd];
    auto using column_name_letters, pretty_Z_digits.
  split.
  - apply column_name_inj; [done..|].
    by rewrite <-(string_of_list_ascii_of_string (column_name c)), Hl,
      string_of_list_ascii_of_string.
  - apply (inj pretty).
    by rewrite <-(string_of_list_ascii_of_string (pretty r)), Hd,
      string_of_list_ascii_of_string.
Qed.

(** ** Ranges, filters and rows *)

Lemma py_range_length a b : Z.of_nat (length (py_range a b)) = Z.max 0 (b - a).
Proof. unfold py_range. rewrite length_seqZ. lia. Qed.

Lemma elem_of_py_range a b x : x ∈ py_range a b ↔ a ≤ x < b.
Proof. unfold py_range. rewrite elem_of_seqZ. lia. Qed.

Lemma py_range_split a b x :
  a ≤ x < b → py_range a b = py_range a x ++ x :: py_range (x + 1) b.
Proof.
  intros Hx. unfold py_range.
  replace (b - a) with ((x - a) + (b - x)) by lia.
  rewrite seqZ_app by lia. f_equal.
  replace (a + (x - a)) with x by lia.
  rewrite seqZ_cons by lia. do 2 f_equal; lia.
Qed.

Lemma py_range_lookup a b (i : Z) :
  0 ≤ i < b - a → py_range a b !! Z.to_nat i = Some (a + i).
Proof.
  intros Hi. unfold py_range. rewrite lookup_seqZ_lt by lia. f_equal. lia.
Qed.

Lemma py_range_empty a b : b ≤ a → py_range a b = [].
Proof.
  intros Hle. apply nil_length_inv.
  pose proof (py_range_length a b). lia.
Qed.

Lemma filter_none {A} (P : A → Prop) `{∀ x, Decision (P x)} (l : list A) :
  Forall (λ x, ¬ P x) l → filter P l = [].
Proof.
  induction 1 as [|x l Hx _ IH]; [done|].
  by rewrite filter_cons_False.
Qed.

Lemma filter_all {A} (P : A → Prop) `{∀ x, Decision (P x)} (l : list A) :
  Forall P l → filter P l = l.
Proof.
  induction 1 as [|x l Hx _ IH]; [done|].
  by rewrite filter_cons_True, IH.
Qed.

Lemma existsb_is_not_None (l : list value) :
  existsb is_not_None l = false ↔ Forall (λ v, v = VNone) l.
Proof.
  induction l as [|v l IH]; simpl; [by split|].
  rewrite orb_false_iff, IH, Forall_cons.
  destruct v; simpl; intuition congruence.
Qed.

(** Line 89 drops a row exactly when [include_empty] is false and the row
    holds nothing but [None]. *)
Lemma row_kept_false ws sc ec ie r :
  row_kept ws sc ec ie r = false
  ↔ ie = false ∧ Forall (λ v, v = VNone) (row_values ws sc ec r).
Proof.
  unfold row_kept. rewrite orb_false_iff, existsb_is_not_None. tauto.
Qed.

Lemma row_values_all_None ws sc ec r :
  Forall (λ v, v = VNone) (row_values ws sc ec r)
  ↔ ∀ c, sc ≤ c ≤ ec → cell_value ws r c = VNone.
Proof.
  unfold row_values. rewrite Forall_fmap, Forall_forall. split.
  - intros Hall c Hc. apply Hall, elem_of_py_range. lia.
  - intros Hall c Hc%elem_of_py_range. apply Hall. lia.
Qed.

Lemma row_values_lookup ws sc ec r c :
  sc ≤ c ≤ ec →
  row_values ws sc ec r !! Z.to_nat (c - sc) = Some (cell_value ws r c).
Proof.
  intros Hc. unfold row_values.
  rewrite list_lookup_fmap, py_range_lookup by lia. simpl.
  f_equal. f_equal. lia.
Qed.

Lemma kept_row_lookup ws sc ec ie sr e r :
  sr ≤ r ≤ e → row_kept ws sc ec ie r = true →
  (row_values ws sc ec
     <$> filter (λ r, row_kept ws sc ec ie r) (py_range sr (e + 1)))
    !! Z.to_nat (counter_at ws sc ec ie sr r)
  = Some (row_values ws sc ec r).
Proof.
  intros Hr Hk. unfold counter_at.
  rewrite (py_range_split sr (e + 1) r) by lia.
  rewrite filter_app, filter_cons_True by (by rewrite Hk).
  rewrite fmap_app, fmap_cons, Nat2Z.id.
  apply list_lookup_middle. by rewrite length_fmap.
Qed.

Lemma counter_at_dropped ws sc ec ie sr r r' :
  sr ≤ r ≤ r' →
  (∀ x, r ≤ x < r' → row_kept ws sc ec ie x = false) →
  counter_at ws sc ec ie sr r' = counter_at ws sc ec ie sr r.
Proof.
  intros Hr Hdrop. unfold counter_at, py_range.
  replace (r' - sr) with ((r - sr) + (r' - r)) by lia.
  rewrite seqZ_app, filter_app, length_app by lia.
  rewrite (filter_none _ (seqZ (sr + (r - sr)) _)); [simpl; lia|].
  apply Forall_forall. intros x Hx%elem_of_seqZ.
  rewrite Hdrop by lia. intros [].
Qed.

Lemma wb_getitem_elem wb sn :
  sn ∈ sheetnames wb → ∃ ws, wb_getitem wb sn = inr ws.
Proof.
  intros Hin. unfold sheetnames in Hin.
  apply list_elem_of_fmap in Hin as ([name ws] & Heq & Hin).
  simpl in Heq. subst sn. unfold wb_getitem.
  destruct (list_find_elem_of (λ s : string * worksheet, s.1 = name)
              (sheets wb) (name, ws) Hin eq_refl) as [[i [n' ws']] ->].
  by exists ws'.
Qed.

(** What a successful call tells about the scanned window: the column
    range is valid, every scanned row index is at least one, and every
    column has letters. *)
Lemma scanned_cells_ok sc ec rows :
  1 ≤ sc ≤ ec →
  Forall (λ r, Forall (cell_ok r) (py_range sc (ec + 1))) rows →
  ∀ r c, r ∈ rows → sc ≤ c ≤ ec → cell_ok r c.
Proof.
  intros Hcols Hok r c Hr Hc.
  rewrite Forall_forall in Hok. specialize (Hok r Hr).
  rewrite Forall_forall in Hok. apply Hok, elem_of_py_range. lia.
Qed.

(** ** Dictionary writes with distinct keys *)

Lemma record_app (m : mapping) l1 l2 :
  record m (l1 ++ l2) = record (record m l1) l2.
Proof. unfold record. by rewrite foldl_app. Qed.

Lemma record_lookup_notin (l : list (string * (Z * Z))) :
  ∀ (m : mapping) key, key ∉ l.*1 → record m l !! key = m !! key.
Proof.
  induction l as [|[k v] l IH]; intros m key Hnot; [done|].
  apply not_elem_of_cons in Hnot as [Hne Hnot]. simpl in Hne.
  change (record (<[k:=v]> m) l !! key = m !! key).
  rewrite IH by done. by rewrite lookup_insert_ne.
Qed.

Lemma record_lookup (l : list (string * (Z * Z))) :
  ∀ (m : mapping) key v,
    NoDup l.*1 → (key, v) ∈ l → record m l !! key = Some v.
Proof.
  induction l as [|[k w] l IH]; intros m key v Hnd Hin.
  - by apply elem_of_nil in Hin.
  - apply NoDup_cons in Hnd as [Hk Hnd].
    change (record (<[k:=w]> m) l !! key = Some v).
    apply elem_of_cons in Hin as [[= -> ->]|Hin].
    + rewrite record_lookup_notin by done. by rewrite lookup_insert_eq.
    + by apply IH.
Qed.

Lemma record_size (l : list (string * (Z * Z))) :
  ∀ (m : mapping),
    NoDup l.*1 → (∀ key, key ∈ l.*1 → m !! key = None) →
    size (record m l) = (size m + length l)%nat.
Proof.
  induction l as [|[k v] l IH]; intros m Hnd Hfresh.
  - simpl. lia.
  - apply NoDup_cons in Hnd as [Hk Hnd].
    change (size (record (<[k:=v]> m) l) = (size m + S (length l))%nat).
    rewrite IH; [|done|].
    + rewrite map_size_insert_None; [lia|]. apply Hfresh. simpl. left.
    + intros key Hkey. rewrite lookup_insert_ne.
      * apply Hfresh. simpl. by right.
      * intros ->. done.
Qed.

(** ** The entries written for a window of rows *)

Section Entries.

Variable ws : worksheet.
Variables sc ec : Z.
Variable ie : bool.

Let kept (r : Z) : Prop := row_kept ws sc ec ie r.
Let cols : list Z := py_range sc (ec + 1).

Lemma table_entries_keys rows :
  ∀ k, (table_entries ws sc ec ie rows k).*1
       = rows ≫= λ r, (λ c, cell_address_of c r) <$> cols.
Proof.
  induction rows as [|r rows IH]; intros k; [done|]. simpl.
  rewrite fmap_app, IH. f_equal.
  unfold row_entries. rewrite <-list_fmap_compose. done.
Qed.

Lemma table_entries_length rows :
  ∀ k, length (table_entries ws sc ec ie rows k)
       = (length rows * length cols)%nat.
Proof.
  induction rows as [|r rows IH]; intros k; [done|]. simpl.
  rewrite length_app, IH. unfold row_entries. by rewrite length_fmap.
Qed.

Lemma table_entries_app pre post :
  ∀ k, table_entries ws sc ec ie (pre ++ post) k
       = table_entries ws sc ec ie pre k
         ++ table_entries ws sc ec ie post
              (k + Z.of_nat (length (filter kept pre))).
Proof.
  induction pre as [|r pre IH]; intros k; simpl.
  - by rewrite Z.add_0_r.
  - rewrite IH, <-app_assoc. do 3 f_equal.
    destruct (row_kept ws sc ec ie r) eqn:Hk.
    + rewrite filter_cons_True by (unfold kept; by rewrite Hk). simpl. lia.
    + rewrite filter_cons_False by (unfold kept; rewrite Hk; intros []). done.
Qed.

Lemma table_entries_NoDup rows k :
  NoDup rows → Forall (λ r, 0 ≤ r) rows → Forall (λ c, 0 ≤ c) cols →
  NoDup (table_entries ws sc ec ie rows k).*1.
Proof.
  intros Hnd Hrows Hcols. rewrite table_entries_keys.
  rewrite Forall_forall in Hrows. rewrite Forall_forall in Hcols.
  apply NoDup_bind; [| |done].
  - intros r1 r2 key Hr1 Hr2 Hk1 Hk2.
    apply list_elem_of_fmap in Hk1 as (c1 & -> & Hc1).
    apply list_elem_of_fmap in Hk2 as (c2 & Heq & Hc2).
    apply cell_address_of_inj in Heq as [_ ?]; auto.
  - intros r Hr. apply NoDup_fmap_2_strong; [|apply NoDup_seqZ].
    intros c1 c2 Hc1 Hc2 Heq.
    apply cell_address_of_inj in Heq as [? _]; auto.
Qed.

Lemma table_entries_elem rows pre r post c k :
  rows = pre ++ r :: post → c ∈ cols →
  (cell_address_of c r, (k + Z.of_nat (length (filter kept pre)), c - sc))
    ∈ table_entries ws sc ec ie rows k.
Proof.
  intros -> Hc. rewrite table_entries_app. simpl.
  apply elem_of_app. right. apply elem_of_app. left.
  unfold row_entries.
  by apply (list_elem_of_fmap_2
              (λ c, (cell_address_of c r, (_, c - sc)))).
Qed.

End Entries.

(** ** The two loops *)

Lemma bind_inr {A B} (x : result A) (k : A → result B) (b : B) :
  bind x k = inr b ↔ ∃ a, x = inr a ∧ k a = inr b.
Proof.
  destruct x as [e|a]; simpl; split.
  - done.
  - by intros (a & ? & ?).
  - eauto.
  - by intros (a' & [= <-] & ?).
Qed.

Lemma scan_cell_inr ws sc r k rd hd (m : mapping) c res :
  scan_cell ws sc r k (rd, hd, m) c = inr res ↔
  cell_ok r c
  ∧ res = (rd ++ [cell_value ws r c],
           is_not_None (cell_value ws r c) || hd,
           <[cell_address_of c r := (k, c - sc)]> m).
Proof.
  unfold scan_cell, ws_cell, cell_ok, cell_address_of.
  case_bool_decide as Hlow; simpl.
  { split; [done | lia]. }
  destruct (get_column_letter c) as [e|s] eqn:Hs; simpl.
  - split; [done|]. intros [[_ Hc] _].
    unfold get_column_letter in Hs. by rewrite bool_decide_true in Hs.
  - apply get_column_letter_inr in Hs as [Hc ->].
    unfold ret.
    destruct (is_not_None (cell_value ws r c)); simpl;
      (split; [intros [= <-]; split; [lia | done] | by intros [_ ->]]).
Qed.

Lemma scan_cells_inr ws sc r k cols :
  ∀ rd hd (m : mapping) res,
    for_each cols (scan_cell ws sc r k) (rd, hd, m) = inr res ↔
    Forall (cell_ok r) cols
    ∧ res = (rd ++ (cell_value ws r <$> cols),
             hd || existsb is_not_None (cell_value ws r <$> cols),
             record m (row_entries sc r k cols)).
Proof.
  induction cols as [|c cols IH]; intros rd hd m res; simpl.
  - rewrite app_nil_r, orb_false_r. unfold ret. split.
    + intros [= <-]. by split.
    + by intros [_ ->].
  - rewrite bind_inr. split.
    + intros ([[rd' hd'] m'] & Hc & Hrest).
      apply scan_cell_inr in Hc as [Hok [= -> -> ->]].
      apply IH in Hrest as [Hoks ->].
      split; [by constructor|].
      rewrite <-app_assoc. simpl.
      by rewrite orb_assoc, (orb_comm hd).
    + intros [Hoks ->]. apply Forall_cons in Hoks as [Hok Hoks].
      eexists (_, _, _). split; [by apply scan_cell_inr|].
      apply IH. split; [done|].
      rewrite <-app_assoc. simpl.
      by rewrite orb_assoc, (orb_comm hd).
Qed.

Lemma scan_row_inr ws sc ec ie d (m : mapping) k r res :
  scan_row ws sc ec ie (d, m, k) r = inr res ↔
  Forall (cell_ok r) (py_range sc (ec + 1))
  ∧ res = (if row_kept ws sc ec ie r
           then (d ++ [row_values ws sc ec r],
                 record m (row_entries sc r k (py_range sc (ec + 1))), k + 1)
           else (d, record m (row_entries sc r k (py_range sc (ec + 1))), k)).
Proof.
  unfold scan_row. rewrite bind_inr. split.
  - intros ([[rd hd] m'] & Hcells & Hres).
    apply scan_cells_inr in Hcells as [Hoks [= -> -> ->]].
    split; [done|]. unfold row_kept, row_values, ret in *. simpl in Hres.
    by destruct (_ || _); simplify_eq.
  - intros [Hoks ->].
    eexists (_, _, _). split; [apply scan_cells_inr; by split|].
    unfold row_kept, row_values, ret. simpl.
    by destruct (_ || _).
Qed.

Lemma scan_rows_inr ws sc ec ie rows :
  ∀ d (m : mapping) k res,
    for_each rows (scan_row ws sc ec ie) (d, m, k) = inr res ↔
    Forall (λ r, Forall (cell_ok r) (py_range sc (ec + 1))) rows
    ∧ res = (d ++ (row_values ws sc ec
                     <$> filter (λ r, row_kept ws sc ec ie r) rows),
             record m (table_entries ws sc ec ie rows k),
             k + Z.of_nat
                   (length (filter (λ r, row_kept ws sc ec ie r) rows))).
Proof.
  induction rows as [|r rows IH]; intros d m k res; simpl.
  - rewrite app_nil_r, Z.add_0_r. unfold ret. split.
    + intros [= <-]. by split.
    + by intros [_ ->].
  - rewrite bind_inr, filter_cons. split.
    + intros (st & Hr & Hrest).
      apply scan_row_inr in Hr as [Hoks ->].
      destruct (row_kept ws sc ec ie r) eqn:Hk.
      * apply IH in Hrest as [Hall ->]. split; [by constructor|].
        rewrite decide_True by done. simpl.
        rewrite <-app_assoc, record_app. simpl. f_equal. lia.
      * apply IH in Hrest as [Hall ->]. split; [by constructor|].
        rewrite decide_False by (intros []).
        by rewrite record_app.
    + intros [Hall ->]. apply Forall_cons in Hall as [Hoks Hall].
      eexists. split; [apply scan_row_inr; by split|].
      destruct (row_kept ws sc ec ie r) eqn:Hk.
      * apply IH. split; [done|].
        rewrite decide_True by done. simpl.
        rewrite <-app_assoc, record_app. simpl. f_equal. lia.
      * apply IH. split; [done|].
        rewrite decide_False by (intros []).
        by rewrite record_app.
Qed.

(** The counter of the definition above is the one the loop holds when it
    reaches the row. *)
Lemma counter_at_loop ws sc ec ie sr r d (m : mapping) k :
  for_each (py_range sr r) (scan_row ws sc ec ie) ([], ∅, 0) = inr (d, m, k) →
  k = counter_at ws sc ec ie sr r.
Proof.
  intros Hloop. apply scan_rows_inr in Hloop as [_ [= _ _ ->]].
  unfold counter_at. lia.
Qed.

(** ** The extraction functions *)

Section Properties.

Variable load_workbook : string → result workbook.
Variable column_index_from_string : string → result Z.
Variable repr_str : string → string.

(** A call returns exactly when the file loads, the sheet exists, the column
    range is valid and the library accepts every scanned cell; the result is
    then the kept rows and the recorded entries. *)
Lemma extract_inr fp sn sc ec sr er ie data (mp : mapping) :
  extract_cells_by_column_range load_workbook repr_str
      fp sn sc ec sr er ie = inr (data, mp) ↔
  ∃ wb ws,
    load_workbook fp = inr wb ∧ sn ∈ sheetnames wb
    ∧ wb_getitem wb sn = inr ws ∧ 1 ≤ sc ≤ ec
    ∧ Forall (λ r, Forall (cell_ok r) (py_range sc (ec + 1)))
             (py_range sr (effective_end_row ws er + 1))
    ∧ data = row_values ws sc ec
               <$> filter (λ r, row_kept ws sc ec ie r)
                     (py_range sr (effective_end_row ws er + 1))
    ∧ mp = record ∅ (table_entries ws sc ec ie
                       (py_range sr (effective_end_row ws er + 1)) 0).
Proof.
  unfold extract_cells_by_column_range.
  destruct (load_workbook fp) as [e|wb] eqn:Hload.
  { split; [by destruct e | by intros (? & ? & [=] & _)]. }
  simpl. case_bool_decide as Hsheet.
  { split; [done | by intros (? & ? & [= <-] & ? & _)]. }
  destruct (wb_getitem wb sn) as [e|ws] eqn:Hws; simpl.
  { split; [done | intros (? & ? & [= <-] & _ & ? & _); congruence]. }
  case_bool_decide as Hcols.
  { split; [done|]. intros (? & ? & _ & _ & _ & ? & _). lia. }
  fold (effective_end_row ws er).
  rewrite bind_inr. split.
  - intros ([[d m] k] & Hloop & [= <- <-]).
    apply scan_rows_inr in Hloop as [Hok [= -> -> _]].
    exists wb, ws. repeat split; try done; lia.
  - intros (wb' & ws' & [= <-] & _ & Hws' & _ & Hok & -> & ->).
    rewrite Hws in Hws'. injection Hws' as <-.
    eexists (_, _, _). split; [|done].
    apply scan_rows_inr. by split.
Qed.

(** A call on a file that loads, with an existing sheet, a valid column
    range up to ZZZ and a start row from one, always returns. *)
Lemma extract_succeeds fp sn sc ec sr er ie wb :
  load_workbook fp = inr wb →
  sn ∈ sheetnames wb →
  1 ≤ sc ≤ ec → ec ≤ 18278 → 1 ≤ sr →
  ∃ data (mp : mapping),
    extract_cells_by_column_range load_workbook repr_str
      fp sn sc ec sr er ie = inr (data, mp).
Proof.
  intros Hload Hsheet Hcols Hmax Hrow.
  destruct (wb_getitem_elem wb sn Hsheet) as [ws Hws].
  eexists _, _. apply extract_inr. exists wb, ws.
  split; [done|]. split; [done|]. split; [done|]. split; [done|].
  split; [|split; reflexivity].
  apply Forall_forall. intros r Hr%elem_of_py_range.
  apply Forall_forall. intros c Hc%elem_of_py_range.
  unfold cell_ok. lia.
Qed.

(** C1. After a successful call, the address of every scanned cell is
    mapped to the kept-row counter held when its row was scanned and to the
    cell's column offset.  For a kept row that counter is the row's index in
    the table, and the table holds the cell's value at that position.  For a
    dropped row the entry stays in the mapping, and its row index is the
    index the next kept row occupies. *)
Theorem cell_mapping_positions fp sn sc ec sr er ie data (mp : mapping) :
  extract_cells_by_column_range load_workbook repr_str
      fp sn sc ec sr er ie = inr (data, mp) →
  ∃ wb ws,
    load_workbook fp = inr wb ∧ wb_getitem wb sn = inr ws ∧
    ∀ r c, sr ≤ r ≤ effective_end_row ws er → sc ≤ c ≤ ec →
      let k := counter_at ws sc ec ie sr r in
      (∃ letters, get_column_letter c = inr letters
                  ∧ mp !! (letters +:+ pretty r) = Some (k, c - sc))
      ∧ (row_kept ws sc ec ie r = true →
           data !! Z.to_nat k = Some (row_values ws sc ec r)
           ∧ row_values ws sc ec r !! Z.to_nat (c - sc)
             = Some (cell_value ws r c))
      ∧ (row_kept ws sc ec ie r = false →
           ∀ r', r < r' ≤ effective_end_row ws er →
                 row_kept ws sc ec ie r' = true →
                 (∀ x, r < x < r' → row_kept ws sc ec ie x = false) →
                 data !! Z.to_nat k = Some (row_values ws sc ec r')).
Proof.
  intros (wb & ws & Hwb & _ & Hws & Hcols & Hok & -> & ->)%extract_inr.
  exists wb, ws. split; [done|]. split; [done|].
  intros r c Hr Hc k.
  set (e := effective_end_row ws er) in *.
  pose proof (scanned_cells_ok _ _ _ Hcols Hok) as Hcell.
  split; [|split].
  - destruct (Hcell r c) as [Hr1 Hc1]; [apply elem_of_py_range; lia | done |].
    exists (column_name c). split; [by apply get_column_letter_inr|].
    apply record_lookup.
    + apply table_entries_NoDup; [apply NoDup_seqZ | |].
      * apply Forall_forall. intros x Hx.
        destruct (Hcell x sc Hx); [lia|lia].
      * apply Forall_forall. intros x Hx%elem_of_py_range. lia.
    + pose proof (table_entries_elem ws sc ec ie
                    (py_range sr (e + 1)) (py_range sr r) r
                    (py_range (r + 1) (e + 1)) c 0) as Hin.
      rewrite Z.add_0_l in Hin. apply Hin.
      * apply py_range_split. lia.
      * apply elem_of_py_range. lia.
  - intros Hk. split; [by apply kept_row_lookup | by apply row_values_lookup].
  - intros Hk r' Hr' Hk' Hbetween.
    subst k. rewrite <-(counter_at_dropped ws sc ec ie sr r r'); [|lia|].
    + apply kept_row_lookup; [lia | done].
    + intros x Hx. destruct (decide (x = r)) as [->|]; [done|].
      apply Hbetween. lia.
Qed.

(** C2, amended. After a successful call the mapping has one entry per
    scanned cell: the number of rows of the window, which is zero when the
    end row lies before the start row, times the number of requested
    columns; the empty-row filter and [include_empty] do not matter. *)
Theorem cell_mapping_size fp sn sc ec sr er ie data (mp : mapping) :
  extract_cells_by_column_range load_workbook repr_str
      fp sn sc ec sr er ie = inr (data, mp) →
  ∃ wb ws,
    load_workbook fp = inr wb ∧ wb_getitem wb sn = inr ws ∧
    Z.of_nat (size mp)
    = Z.max 0 (effective_end_row ws er - sr + 1) * (ec - sc + 1).
Proof.
  intros (wb & ws & Hwb & _ & Hws & Hcols & Hok & -> & ->)%extract_inr.
  exists wb, ws. split; [done|]. split; [done|].
  set (e := effective_end_row ws er) in *.
  pose proof (scanned_cells_ok _ _ _ Hcols Hok) as Hcell.
  rewrite record_size.
  - rewrite map_size_empty, table_entries_length. simpl.
    rewrite Nat2Z.inj_mul, !py_range_length. lia.
  - apply table_entries_NoDup; [apply NoDup_seqZ | |].
    + apply Forall_forall. intros x Hx.
      destruct (Hcell x sc Hx); [lia|lia].
    + apply Forall_forall. intros x Hx%elem_of_py_range. lia.
  - intros key _. apply lookup_empty.
Qed.

(** C3, amended. After a successful call the table has at most as many
    rows as the window has, and exactly that many when [include_empty] is
    true; a window whose end row lies before its start row has no rows. *)
Theorem extracted_row_count fp sn sc ec sr er ie data (mp : mapping) :
  extract_cells_by_column_range load_workbook repr_str
      fp sn sc ec sr er ie = inr (data, mp) →
  ∃ wb ws,
    load_workbook fp = inr wb ∧ wb_getitem wb sn = inr ws ∧
    Z.of_nat (length data) ≤ Z.max 0 (effective_end_row ws er - sr + 1)
    ∧ (ie = true →
       Z.of_nat (length data) = Z.max 0 (effective_end_row ws er - sr + 1)).
Proof.
  intros (wb & ws & Hwb & _ & Hws & Hcols & Hok & -> & ->)%extract_inr.
  exists wb, ws. split; [done|]. split; [done|].
  set (e := effective_end_row ws er) in *.
  rewrite length_fmap. split.
  - pose proof (length_filter (λ r, row_kept ws sc ec ie r)
                  (py_range sr (e + 1))) as Hle.
    pose proof (py_range_length sr (e + 1)). lia.
  - intros ->. rewrite filter_all.
    + rewrite py_range_length. lia.
    + apply Forall_forall. intros r _. unfold row_kept.
      by rewrite orb_true_r.
Qed.

(** C4. After a successful call every row of the table has
    [end_column - start_column + 1] entries, and they are the values of one
    scanned sheet row over the requested columns, in ascending column
    order. *)
Theorem extracted_row_shape fp sn sc ec sr er ie data (mp : mapping) :
  extract_cells_by_column_range load_workbook repr_str
      fp sn sc ec sr er ie = inr (data, mp) →
  ∃ wb ws,
    load_workbook fp = inr wb ∧ wb_getitem wb sn = inr ws ∧
    ∀ i row, data !! i = Some row →
      Z.of_nat (length row) = ec - sc + 1
      ∧ ∃ r, sr ≤ r ≤ effective_end_row ws er
             ∧ ∀ j, 0 ≤ j ≤ ec - sc →
                 row !! Z.to_nat j = Some (cell_value ws r (sc + j)).
Proof.
  intros (wb & ws & Hwb & _ & Hws & Hcols & Hok & -> & ->)%extract_inr.
  exists wb, ws. split; [done|]. split; [done|].
  intros i row Hrow.
  apply list_lookup_fmap_Some in Hrow as (r & -> & Hr).
  apply list_elem_of_lookup_2, list_elem_of_filter in Hr as [_ Hr].
  apply elem_of_py_range in Hr. split.
  - unfold row_values. rewrite length_fmap, py_range_length. lia.
  - exists r. split; [lia|]. intros j Hj.
    rewrite <-(row_values_lookup ws sc ec r (sc + j)) by lia.
    f_equal. lia.
Qed.

(** C5. When both column letters convert, the call by letters is the call
    by numbers on the converted columns, every other argument unchanged:
    the same table and mapping, or the same exception. *)
Theorem letters_agree_with_numbers fp sn a b n1 n2 sr er ie :
  column_index_from_string a = inr n1 →
  column_index_from_string b = inr n2 →
  extract_cells_by_column_letters load_workbook
      column_index_from_string repr_str
      fp sn a b sr er ie
  = extract_cells_by_column_range load_workbook repr_str
      fp sn n1 n2 sr er ie.
Proof.
  intros Ha Hb. unfold extract_cells_by_column_letters.
  by rewrite Ha, Hb.
Qed.

(** C6, amended. When the file does not exist, that is when the loader
    raises [FileNotFoundError], the call raises [FileNotFoundError] with a
    message that carries the path.  Any other exception of the loader, as
    for a file that exists but is not a workbook, reaches the caller as it
    is. *)
Theorem load_failure_surfaces fp sn sc ec sr er ie e :
  load_workbook fp = inl e →
  extract_cells_by_column_range load_workbook repr_str
      fp sn sc ec sr er ie
  = inl (match e with
         | FileNotFoundError _ =>
             FileNotFoundError ("Excel file not found: " +:+ fp)
         | _ => e
         end).
Proof.
  intros Hload. unfold extract_cells_by_column_range.
  rewrite Hload. by destruct e.
Qed.

(** C7. On a workbook that loads, a sheet name that is not among its sheets
    makes the call raise [ValueError], and the message holds the [repr] of
    the list of sheet names, so the [repr] of each available name. *)
Theorem missing_sheet_lists_names fp sn sc ec sr er ie wb :
  load_workbook fp = inr wb →
  sn ∉ sheetnames wb →
  extract_cells_by_column_range load_workbook repr_str
      fp sn sc ec sr er ie
  = inl (ValueError ("Sheet '" +:+ sn +:+ "' not found. Available sheets: "
                     +:+ repr_list repr_str (sheetnames wb)))
  ∧ ∀ name, name ∈ sheetnames wb →
      ∃ pre post,
        repr_list repr_str (sheetnames wb) = pre +:+ repr_str name +:+ post.
Proof.
  intros Hload Hsheet. split.
  - unfold extract_cells_by_column_range. rewrite Hload. simpl.
    by rewrite bool_decide_true.
  - intros name Hname. unfold repr_list.
    destruct (join_elem ", " (repr_str <$> sheetnames wb) (repr_str name))
      as (pre & post & ->); [by apply list_elem_of_fmap_2|].
    exists ("[" +:+ pre), (post +:+ "]").
    by rewrite !string_app_assoc.
Qed.

(** C8. If a column letter string does not convert (the conversion raises
    [ValueError]), the call by letters raises [ValueError] with the
    conversion's message after the words "Invalid column letters: ".  When
    both convert, every exception of the delegated call is the exception of
    the call by letters. *)
Theorem letters_errors fp sn a b sr er ie :
  (∀ msg,
     column_index_from_string a = inl (ValueError msg)
     ∨ (∃ n1, column_index_from_string a = inr n1
              ∧ column_index_from_string b = inl (ValueError msg)) →
     extract_cells_by_column_letters load_workbook
         column_index_from_string repr_str
         fp sn a b sr er ie
     = inl (ValueError ("Invalid column letters: " +:+ msg)))
  ∧ (∀ n1 n2 e,
       column_index_from_string a = inr n1 →
       column_index_from_string b = inr n2 →
       extract_cells_by_column_range load_workbook repr_str
           fp sn n1 n2 sr er ie = inl e →
       extract_cells_by_column_letters load_workbook
           column_index_from_string repr_str
           fp sn a b sr er ie = inl e).
Proof.
  split.
  - intros msg [Ha|(n1 & Ha & Hb)]; unfold extract_cells_by_column_letters.
    + by rewrite Ha.
    + by rewrite Ha, Hb.
  - intros n1 n2 e Ha Hb He. unfold extract_cells_by_column_letters.
    by rewrite Ha, Hb.
Qed.

(** C9. With a file that loads, a sheet that exists and a valid column
    range, an end row given below the start row raises nothing: the table
    and the mapping are both empty. *)
Theorem empty_row_window fp sn sc ec sr er ie wb :
  load_workbook fp = inr wb →
  sn ∈ sheetnames wb →
  1 ≤ sc ≤ ec →
  er < sr →
  extract_cells_by_column_range load_workbook repr_str
      fp sn sc ec sr (Some er) ie = inr ([], ∅).
Proof.
  intros Hload Hsheet Hcols Hrows.
  destruct (wb_getitem_elem wb sn Hsheet) as [ws Hws].
  apply extract_inr. exists wb, ws.
  simpl. rewrite (py_range_empty sr) by lia.
  split; [done|]. split; [done|]. split; [done|]. split; [lia|].
  split; [constructor|]. split; reflexivity.
Qed.

(** C10. A scanned row is left out of the table exactly when
    [include_empty] is false and every value of the row over the requested
    columns is [None]: the loop body leaves the table and the counter alone
    on such a row and appends the row otherwise, so the table is, in order,
    the rows of the window that are not of that kind.  The test behind it,
    [is not None], holds of every value other than [None], the empty text,
    zero and false included. *)
Theorem empty_row_filter fp sn sc ec sr er ie data (mp : mapping) :
  extract_cells_by_column_range load_workbook repr_str
      fp sn sc ec sr er ie = inr (data, mp) →
  ∃ wb ws,
    load_workbook fp = inr wb ∧ wb_getitem wb sn = inr ws ∧
    data = row_values ws sc ec
             <$> filter (λ r, ¬ (ie = false
                                 ∧ Forall (λ v, v = VNone)
                                          (row_values ws sc ec r)))
                   (py_range sr (effective_end_row ws er + 1))
    ∧ (∀ r d (m : mapping) k d' (m' : mapping) k',
         scan_row ws sc ec ie (d, m, k) r = inr (d', m', k') →
         if decide (ie = false
                    ∧ Forall (λ v, v = VNone) (row_values ws sc ec r))
         then d' = d ∧ k' = k
         else d' = d ++ [row_values ws sc ec r] ∧ k' = k + 1)
    ∧ (∀ r, Forall (λ v, v = VNone) (row_values ws sc ec r)
            ↔ ∀ c, sc ≤ c ≤ ec → cell_value ws r c = VNone)
    ∧ (∀ v, is_not_None v = true ↔ v ≠ VNone)
    ∧ is_not_None (VText "") = true ∧ is_not_None (VNumber 0) = true
    ∧ is_not_None (VBool false) = true.
Proof.
  intros (wb & ws & Hwb & _ & Hws & Hcols & Hok & -> & ->)%extract_inr.
  exists wb, ws. split; [done|]. split; [done|].
  split; [|split; [|split; [|split; [|done]]]].
  - f_equal. apply list_filter_iff. intros r.
    rewrite <-row_kept_false. by destruct (row_kept ws sc ec ie r).
  - intros r d m k d' m' k' [_ Hres]%scan_row_inr.
    destruct (row_kept ws sc ec ie r) eqn:Hk; injection Hres as -> _ ->.
    + rewrite decide_False; [done|].
      rewrite <-row_kept_false, Hk. discriminate.
    + rewrite decide_True; [done|]. by apply row_kept_false.
  - intros r. apply row_values_all_None.
  - intros v. by destruct v.
Qed.

End Properties.

(** ** The scenario of the specification *)

Lemma scenario_extract :
  by_range "data.xlsx" "Sheet1" 1 2 1 (Some 3) false
  = inr (scenario_table, scenario_mapping).
Proof. vm_compute. reflexivity. Qed.

(** Empty text, zero and false are data; the dropped row 2 leaves the stale
    entry A2, which carries the index of the next kept row. *)
Lemma falsy_rows_kept :
  extract_cells_by_column_range falsy_files quote_repr
    "book.xlsx" "Sheet1" 1 1 1 None false
  = inr ([ [VText ""]; [VNumber 0]; [VBool false] ],
         list_to_map [ ("A1", (0, 0)); ("A2", (1, 0));
                       ("A3", (1, 0)); ("A4", (2, 0)) ]).
Proof. vm_compute. reflexivity. Qed.

Lemma scenario_include_empty :
  by_range "data.xlsx" "Sheet1" 1 2 1 None true
  = inr (scenario_table ++ [[VNone; VNone]], scenario_mapping).
Proof. vm_compute. reflexivity. Qed.

Lemma scenario_by_letters :
  by_letters "data.xlsx" "Sheet1" "a" "B" 1 (Some 3) false
  = inr (scenario_table, scenario_mapping).
Proof. vm_compute. reflexivity. Qed.

Lemma cell_mapping_positions_witness :
  ∃ wb ws,
    scenario_files "data.xlsx" = inr wb ∧ wb_getitem wb "Sheet1" = inr ws ∧
    ∀ r c, 1 ≤ r ≤ effective_end_row ws (Some 3) → 1 ≤ c ≤ 2 →
      let k := counter_at ws 1 2 false 1 r in
      (∃ letters, get_column_letter c = inr letters
                  ∧ scenario_mapping !! (letters +:+ pretty r)
                    = Some (k, c - 1))
      ∧ (row_kept ws 1 2 false r = true →
           scenario_table !! Z.to_nat k = Some (row_values ws 1 2 r)
           ∧ row_values ws 1 2 r !! Z.to_nat (c - 1)
             = Some (cell_value ws r c))
      ∧ (row_kept ws 1 2 false r = false →
           ∀ r', r < r' ≤ effective_end_row ws (Some 3) →
                 row_kept ws 1 2 false r' = true →
                 (∀ x, r < x < r' → row_kept ws 1 2 false x = false) →
                 scenario_table !! Z.to_nat k = Some (row_values ws 1 2 r')).
Proof.
  apply (cell_mapping_positions scenario_files quote_repr
           "data.xlsx" "Sheet1" 1 2 1 (Some 3) false).
  vm_compute. reflexivity.
Defined.

Lemma cell_mapping_size_counterexample :
  ∃ data (mp : mapping),
    extract_cells_by_column_range scenario_files quote_repr
      "data.xlsx" "Sheet1" 1 2 5 (Some 2) false = inr (data, mp)
    ∧ Z.of_nat (size mp) ≠ (2 - 5 + 1) * (2 - 1 + 1).
Proof.
  exists [], ∅. split; [vm_compute; reflexivity|].
  rewrite map_size_empty. lia.
Qed.

Lemma cell_mapping_size_witness :
  ∃ wb ws,
    scenario_files "data.xlsx" = inr wb ∧ wb_getitem wb "Sheet1" = inr ws ∧
    Z.of_nat (size scenario_mapping)
    = Z.max 0 (effective_end_row ws (Some 3) - 1 + 1) * (2 - 1 + 1).
Proof.
  apply (cell_mapping_size scenario_files quote_repr
           "data.xlsx" "Sheet1" 1 2 1 (Some 3) false scenario_table).
  vm_compute. reflexivity.
Defined.

Lemma extracted_row_count_counterexample :
  ∃ data (mp : mapping),
    extract_cells_by_column_range scenario_files quote_repr
      "data.xlsx" "Sheet1" 1 2 5 (Some 2) true = inr (data, mp)
    ∧ Z.of_nat (length data) ≠ 2 - 5 + 1.
Proof.
  exists [], ∅. split; [vm_compute; reflexivity|]. simpl. lia.
Qed.

Lemma extracted_row_count_witness :
  ∃ wb ws,
    scenario_files "data.xlsx" = inr wb ∧ wb_getitem wb "Sheet1" = inr ws ∧
    Z.of_nat (length (scenario_table ++ [[VNone; VNone]]))
    ≤ Z.max 0 (effective_end_row ws None - 1 + 1)
    ∧ (true = true →
       Z.of_nat (length (scenario_table ++ [[VNone; VNone]]))
       = Z.max 0 (effective_end_row ws None - 1 + 1)).
Proof.
  apply (extracted_row_count scenario_files quote_repr
           "data.xlsx" "Sheet1" 1 2 1 None true
           (scenario_table ++ [[VNone; VNone]]) scenario_mapping).
  vm_compute. reflexivity.
Defined.

Lemma extracted_row_shape_witness :
  ∃ wb ws,
    scenario_files "data.xlsx" = inr wb ∧ wb_getitem wb "Sheet1" = inr ws ∧
    ∀ i row, scenario_table !! i = Some row →
      Z.of_nat (length row) = 2 - 1 + 1
      ∧ ∃ r, 1 ≤ r ≤ effective_end_row ws (Some 3)
             ∧ ∀ j, 0 ≤ j ≤ 2 - 1 →
                 row !! Z.to_nat j = Some (cell_value ws r (1 + j)).
Proof.
  apply (extracted_row_shape scenario_files quote_repr
           "data.xlsx" "Sheet1" 1 2 1 (Some 3) false scenario_table
           scenario_mapping).
  vm_compute. reflexivity.
Defined.

Lemma letters_agree_with_numbers_witness :
  by_letters "data.xlsx" "Sheet1" "A" "C" 1 (Some 3) false
  = by_range "data.xlsx" "Sheet1" 1 3 1 (Some 3) false.
Proof.
  apply (letters_agree_with_numbers scenario_files letters_to_index
           quote_repr "data.xlsx" "Sheet1" "A" "C" 1 3 1 (Some 3) false);
    reflexivity.
Defined.

Lemma load_failure_surfaces_counterexample :
  (∀ wb, scenario_files "notes.xlsx" ≠ inr wb)
  ∧ ∀ msg,
      extract_cells_by_column_range scenario_files quote_repr
        "notes.xlsx" "Sheet1" 1 2 1 (Some 3) false
      ≠ inl (FileNotFoundError msg).
Proof.
  split; [intros wb | intros msg]; vm_compute; discriminate.
Qed.

Lemma load_failure_surfaces_witness :
  by_range "missing.xlsx" "Sheet1" 1 2 1 (Some 3) false
  = inl (FileNotFoundError "Excel file not found: missing.xlsx").
Proof.
  apply (load_failure_surfaces scenario_files quote_repr
           "missing.xlsx" "Sheet1" 1 2 1 (Some 3) false
           (FileNotFoundError
              "[Errno 2] No such file or directory: 'missing.xlsx'")).
  reflexivity.
Defined.

Lemma missing_sheet_lists_names_witness :
  by_range "data.xlsx" "Totals" 1 2 1 (Some 3) false
  = inl (ValueError
           ("Sheet '" +:+ "Totals" +:+ "' not found. Available sheets: "
            +:+ repr_list quote_repr (sheetnames scenario_workbook)))
  ∧ ∀ name, name ∈ sheetnames scenario_workbook →
      ∃ pre post,
        repr_list quote_repr (sheetnames scenario_workbook)
        = pre +:+ quote_repr name +:+ post.
Proof.
  apply (missing_sheet_lists_names scenario_files quote_repr
           "data.xlsx" "Totals" 1 2 1 (Some 3) false scenario_workbook).
  - reflexivity.
  - refine (bool_decide_unpack _ _). vm_compute. exact I.
Defined.

Lemma letters_errors_witness :
  by_letters "data.xlsx" "Sheet1" "A" "B1" 1 (Some 3) false
  = inl (ValueError
           ("Invalid column letters: " +:+ "B1 is not a valid column name")).
Proof.
  apply (proj1 (letters_errors scenario_files letters_to_index quote_repr
                  "data.xlsx" "Sheet1" "A" "B1" 1 (Some 3) false)).
  right. exists 1. split; reflexivity.
Defined.

Lemma empty_row_window_witness :
  by_range "data.xlsx" "Sheet1" 1 2 5 (Some 2) false = inr ([], ∅).
Proof.
  apply (empty_row_window scenario_files quote_repr
           "data.xlsx" "Sheet1" 1 2 5 2 false scenario_workbook).
  - reflexivity.
  - refine (bool_decide_unpack _ _). vm_compute. exact I.
  - lia.
  - lia.
Defined.

Lemma empty_row_filter_witness :
  ∃ wb ws,
    scenario_files "data.xlsx" = inr wb ∧ wb_getitem wb "Sheet1" = inr ws ∧
    scenario_table
    = row_values ws 1 2
        <$> filter (λ r, ¬ (false = false
                            ∧ Forall (λ v, v = VNone) (row_values ws 1 2 r)))
              (py_range 1 (effective_end_row ws (Some 3) + 1))
    ∧ (∀ r d (m : mapping) k d' (m' : mapping) k',
         scan_row ws 1 2 false (d, m, k) r = inr (d', m', k') →
         if decide (false = false
                    ∧ Forall (λ v, v = VNone) (row_values ws 1 2 r))
         then d' = d ∧ k' = k
         else d' = d ++ [row_values ws 1 2 r] ∧ k' = k + 1)
    ∧ (∀ r, Forall (λ v, v = VNone) (row_values ws 1 2 r)
            ↔ ∀ c, 1 ≤ c ≤ 2 → cell_value ws r c = VNone)
    ∧ (∀ v, is_not_None v = true ↔ v ≠ VNone)
    ∧ is_not_None (VText "") = true ∧ is_not_None (VNumber 0) = true
    ∧ is_not_None (VBool false) = true.
Proof.
  apply (empty_row_filter scenario_files quote_repr
           "data.xlsx" "Sheet1" 1 2 1 (Some 3) false scenario_table
           scenario_mapping).
  vm_compute. reflexivity.
Defined.

(** * Further properties of the two functions *)

(** ** Loops, dictionary writes and windows *)


Lemma record_lookup_inv (l : list (string * (Z * Z))) :
  ∀ (m : mapping) key v,
    record m l !! key = Some v → (key, v) ∈ l ∨ m !! key = Some v.
Proof.
  induction l as [|[k w] l IH]; intros m key v Hlook; [by right|].
  change (record (<[k:=w]> m) l !! key = Some v) in Hlook.
  apply IH in Hlook as [Hin|Hlook]; [left; by right|].
  destruct (decide (k = key)) as [->|Hne].
  - rewrite lookup_insert_eq in Hlook. injection Hlook as ->. left. by left.
  - rewrite lookup_insert_ne in Hlook by done. by right.
Qed.

Lemma record_dom (l : list (string * (Z * Z))) :
  ∀ (m : mapping), dom (record m l) = dom m ∪ list_to_set l.*1.
Proof.
  induction l as [|[k w] l IH]; intros m.
  - simpl. by rewrite union_empty_r_L.
  - change (dom (record (<[k:=w]> m) l)
            = dom m ∪ ({[k]} ∪ list_to_set l.*1)).
    rewrite IH, dom_insert_L.
    by rewrite (comm_L (∪) {[k]} (dom m)), <-(assoc_L (∪)).
Qed.

Lemma py_range_split_inv a b pre x post :
  py_range a b = pre ++ x :: post →
  a ≤ x < b ∧ pre = py_range a x ∧ post = py_range (x + 1) b.
Proof.
  intros Heq.
  assert (a ≤ x < b) as Hx.
  { apply elem_of_py_range. rewrite Heq. apply elem_of_app. right. by left. }
  split; [done|].
  pose proof (py_range_split a b x Hx) as Hsplit. rewrite Heq in Hsplit.
  assert (length pre = length (py_range a x)) as Hlen.
  { apply (NoDup_lookup (py_range a b) _ _ x).
    - apply NoDup_seqZ.
    - rewrite Heq. by apply list_lookup_middle.
    - rewrite Heq, Hsplit. by apply list_lookup_middle. }
  apply app_inj_1 in Hsplit as [Hpre Hpost]; [|done].
  split; [done | by injection Hpost].
Qed.

Lemma table_entries_elem_inv ws sc ec ie rows :
  ∀ k key v,
    (key, v) ∈ table_entries ws sc ec ie rows k →
    ∃ pre r post c,
      rows = pre ++ r :: post ∧ c ∈ py_range sc (ec + 1)
      ∧ key = cell_address_of c r
      ∧ v = (k + Z.of_nat
                   (length (filter (λ r, row_kept ws sc ec ie r) pre)),
             c - sc).
Proof.
  induction rows as [|r rows IH]; intros k key v Hin.
  - by apply elem_of_nil in Hin.
  - simpl in Hin. apply elem_of_app in Hin as [Hin|Hin].
    + unfold row_entries in Hin.
      apply list_elem_of_fmap in Hin as (c & [= -> ->] & Hc).
      exists [], r, rows, c. simpl. rewrite Z.add_0_r. done.
    + apply IH in Hin as (pre & r' & post & c & -> & Hc & -> & ->).
      exists (r :: pre), r', post, c.
      split; [done|]. split; [done|]. split; [done|].
      f_equal. destruct (row_kept ws sc ec ie r) eqn:Hk.
      * rewrite filter_cons_True by (by rewrite Hk). simpl. lia.
      * rewrite filter_cons_False by (rewrite Hk; intros []). lia.
Qed.

(** Every entry written for a window is the entry of one of its cells. *)
Lemma window_entry_inv ws sc ec ie sr e key v :
  (key, v) ∈ table_entries ws sc ec ie (py_range sr (e + 1)) 0 →
  ∃ r c, sr ≤ r ≤ e ∧ sc ≤ c ≤ ec ∧ key = cell_address_of c r
         ∧ v = (counter_at ws sc ec ie sr r, c - sc).
Proof.
  intros (pre & r & post & c & Hrows & Hc & -> & ->)%table_entries_elem_inv.
  apply py_range_split_inv in Hrows as (Hr & -> & _).
  apply elem_of_py_range in Hc.
  exists r, c. split; [lia|]. split; [lia|]. split; [done|].
  unfold counter_at. f_equal.
Qed.

Lemma window_entries_NoDup ws sc ec ie sr e :
  1 ≤ sc ≤ ec →
  Forall (λ r, Forall (cell_ok r) (py_range sc (ec + 1)))
         (py_range sr (e + 1)) →
  NoDup (table_entries ws sc ec ie (py_range sr (e + 1)) 0).*1.
Proof.
  intros Hcols Hok.
  pose proof (scanned_cells_ok _ _ _ Hcols Hok) as Hcell.
  apply table_entries_NoDup; [apply NoDup_seqZ | |].
  - apply Forall_forall. intros x Hx. destruct (Hcell x sc Hx); lia.
  - apply Forall_forall. intros x Hx%elem_of_py_range. lia.
Qed.

(** The entry of a scanned cell. *)
Lemma window_lookup ws sc ec ie sr e r c :
  1 ≤ sc ≤ ec →
  Forall (λ r, Forall (cell_ok r) (py_range sc (ec + 1)))
         (py_range sr (e + 1)) →
  sr ≤ r ≤ e → sc ≤ c ≤ ec →
  record ∅ (table_entries ws sc ec ie (py_range sr (e + 1)) 0)
    !! cell_address_of c r
  = Some (counter_at ws sc ec ie sr r, c - sc).
Proof.
  intros Hcols Hok Hr Hc.
  apply record_lookup; [by apply window_entries_NoDup|].
  pose proof (table_entries_elem ws sc ec ie
                (py_range sr (e + 1)) (py_range sr r) r
                (py_range (r + 1) (e + 1)) c 0) as Hin.
  rewrite Z.add_0_l in Hin. apply Hin.
  - apply py_range_split. lia.
  - apply elem_of_py_range. lia.
Qed.

Lemma counter_at_nonneg ws sc ec ie sr r : 0 ≤ counter_at ws sc ec ie sr r.
Proof. unfold counter_at. lia. Qed.

Lemma counter_at_mono ws sc ec ie sr r r' :
  sr ≤ r ≤ r' →
  counter_at ws sc ec ie sr r ≤ counter_at ws sc ec ie sr r'.
Proof.
  intros Hr. unfold counter_at, py_range.
  replace (r' - sr) with ((r - sr) + (r' - r)) by lia.
  rewrite seqZ_app, filter_app, length_app by lia. lia.
Qed.

Lemma counter_at_kept_lt ws sc ec ie sr r r' :
  sr ≤ r < r' → row_kept ws sc ec ie r = true →
  counter_at ws sc ec ie sr r < counter_at ws sc ec ie sr r'.
Proof.
  intros Hr Hk. unfold counter_at.
  rewrite (py_range_split sr r' r) by lia.
  rewrite filter_app, filter_cons_True by (by rewrite Hk).
  rewrite length_app. simpl. lia.
Qed.


Lemma counter_at_include_empty ws sc ec sr r :
  sr ≤ r → counter_at ws sc ec true sr r = r - sr.
Proof.
  intros Hr. unfold counter_at. rewrite filter_all.
  - rewrite py_range_length. lia.
  - apply Forall_forall. intros x _. unfold row_kept.
    by rewrite orb_true_r.
Qed.

Lemma filter_fmap {A B} (f : A → B) (P : B → Prop) `{∀ y, Decision (P y)}
    (l : list A) :
  filter P (f <$> l) = f <$> filter (λ x, P (f x)) l.
Proof.
  induction l as [|x l IH]; [done|].
  rewrite fmap_cons, !filter_cons, IH. by destruct (decide (P (f x))).
Qed.

Lemma py_range_app a b c :
  a ≤ b ≤ c → py_range a c = py_range a b ++ py_range b c.
Proof.
  intros Hb. unfold py_range.
  replace (c - a) with ((b - a) + (c - b)) by lia.
  rewrite seqZ_app by lia. do 2 f_equal. lia.
Qed.

(** The entries of a run of rows do not depend on where the counter
    starts, up to that start. *)
Lemma table_entries_shift ws sc ec ie rows k key i j :
  (key, (i, j)) ∈ table_entries ws sc ec ie rows 0 →
  (key, (i + k, j)) ∈ table_entries ws sc ec ie rows k.
Proof.
  intros (pre & r & post & c & Hrows & Hc & -> & [= -> ->])
    %table_entries_elem_inv.
  replace (0 + Z.of_nat (length (filter (λ r, row_kept ws sc ec ie r) pre))
           + k)
    with (k + Z.of_nat (length (filter (λ r, row_kept ws sc ec ie r) pre)))
    by lia.
  by apply (table_entries_elem ws sc ec ie rows pre r post).
Qed.

(** X11. The address built on line 82 names one cell only: two cells with
    row indices from one and columns that have letters get the same address
    only if they are the same cell, so no write to the mapping replaces the
    entry of another cell. *)
Theorem cell_addresses_distinct c1 r1 c2 r2 letters1 letters2 :
  get_column_letter c1 = inr letters1 →
  get_column_letter c2 = inr letters2 →
  1 ≤ r1 → 1 ≤ r2 →
  letters1 +:+ pretty r1 = letters2 +:+ pretty r2 →
  c1 = c2 ∧ r1 = r2.
Proof.
  intros [Hc1 ->]%get_column_letter_inr [Hc2 ->]%get_column_letter_inr
    Hr1 Hr2 Heq.
  apply (cell_address_of_inj c1 r1 c2 r2); [lia..|done].
Qed.

(** ** Errors and results of [extract_cells_by_column_range] *)

Section Further.

Variable load_workbook : string → result workbook.
Variable column_index_from_string : string → result Z.
Variable repr_str : string → string.

(** X1. On a workbook that loads and for a sheet that exists, a start column
    below one or an end column below the start column makes the call raise
    [ValueError] with a message that names both columns, whatever the row
    window and before any cell is read. *)
Theorem invalid_column_range fp sn sc ec sr er ie wb :
  load_workbook fp = inr wb →
  sn ∈ sheetnames wb →
  sc < 1 ∨ ec < sc →
  extract_cells_by_column_range load_workbook repr_str
      fp sn sc ec sr er ie
  = inl (ValueError ("Invalid column range: start_column=" +:+ pretty sc
                     +:+ ", end_column=" +:+ pretty ec)).
Proof.
  intros Hload Hsheet Hcols.
  destruct (wb_getitem_elem wb sn Hsheet) as [ws Hws].
  unfold extract_cells_by_column_range. rewrite Hload. simpl.
  rewrite bool_decide_false by (intros Hnot; by apply Hnot).
  rewrite Hws. simpl. by rewrite bool_decide_true.
Qed.


(** X3. With a file that loads, a sheet that exists, a valid column range
    and a window that is not empty, a start row below one makes the call
    raise the [ValueError] of the cell lookup: no row is returned for a row
    index that the sheet does not have. *)
Theorem start_row_below_one fp sn sc ec sr er ie wb ws :
  load_workbook fp = inr wb →
  sn ∈ sheetnames wb →
  wb_getitem wb sn = inr ws →
  1 ≤ sc ≤ ec →
  sr ≤ effective_end_row ws er →
  sr < 1 →
  extract_cells_by_column_range load_workbook repr_str
      fp sn sc ec sr er ie
  = inl (ValueError "Row or column values must be at least 1").
Proof.
  intros Hload Hsheet Hws Hcols Hwin Hrow.
  unfold extract_cells_by_column_range. rewrite Hload. simpl.
  rewrite bool_decide_false by (intros Hnot; by apply Hnot).
  rewrite Hws. simpl. rewrite bool_decide_false by lia.
  fold (effective_end_row ws er).
  rewrite (py_range_split sr (effective_end_row ws er + 1) sr) by lia.
  rewrite (py_range_empty sr sr) by lia. simpl.
  rewrite (py_range_split sc (ec + 1) sc) by lia.
  rewrite (py_range_empty sc sc) by lia. simpl.
  unfold ws_cell. rewrite bool_decide_true by lia. done.
Qed.


(** X5. After a successful call the mapping holds nothing but the entries
    of the scanned cells: every key is the address of a cell of the window,
    and its value is the counter held when that row was scanned and the
    column offset. *)
Theorem cell_mapping_only_scanned fp sn sc ec sr er ie data (mp : mapping) :
  extract_cells_by_column_range load_workbook repr_str
      fp sn sc ec sr er ie = inr (data, mp) →
  ∃ wb ws,
    load_workbook fp = inr wb ∧ wb_getitem wb sn = inr ws ∧
    ∀ key i j, mp !! key = Some (i, j) →
      ∃ r c letters,
        sr ≤ r ≤ effective_end_row ws er ∧ sc ≤ c ≤ ec
        ∧ get_column_letter c = inr letters
        ∧ key = letters +:+ pretty r
        ∧ i = counter_at ws sc ec ie sr r ∧ j = c - sc.
Proof.
  intros (wb & ws & Hwb & _ & Hws & Hcols & Hok & -> & ->)%extract_inr.
  exists wb, ws. split; [done|]. split; [done|].
  intros key i j Hkey.
  apply record_lookup_inv in Hkey as [Hin|Hin]; [|by rewrite lookup_empty in Hin].
  apply window_entry_inv in Hin as (r & c & Hr & Hc & -> & [= -> ->]).
  destruct (scanned_cells_ok _ _ _ Hcols Hok r c) as [_ Hc'];
    [apply elem_of_py_range; lia | done |].
  exists r, c, (column_name c).
  split; [done|]. split; [done|]. split; [by apply get_column_letter_inr|].
  done.
Qed.

(** X6. After a successful call every position in the mapping has a row
    index between zero and the number of rows of the table, that number
    included (an entry of a row dropped after the last kept row points one
    past the table), and a column index within the width of a row. *)
Theorem cell_mapping_bounds fp sn sc ec sr er ie data (mp : mapping) :
  extract_cells_by_column_range load_workbook repr_str
      fp sn sc ec sr er ie = inr (data, mp) →
  ∀ key i j, mp !! key = Some (i, j) →
    0 ≤ i ≤ Z.of_nat (length data) ∧ 0 ≤ j ≤ ec - sc.
Proof.
  intros (wb & ws & Hwb & _ & Hws & Hcols & Hok & -> & ->)%extract_inr.
  intros key i j Hkey.
  apply record_lookup_inv in Hkey as [Hin|Hin]; [|by rewrite lookup_empty in Hin].
  apply window_entry_inv in Hin as (r & c & Hr & Hc & -> & [= -> ->]).
  split; [|lia]. split; [apply counter_at_nonneg|].
  rewrite length_fmap.
  apply (counter_at_mono ws sc ec ie sr r (effective_end_row ws er + 1)).
  lia.
Qed.

(** X7. After a successful call two different cells of kept rows are never
    mapped to the same position: on the kept rows the mapping is one to
    one. *)
Theorem kept_cells_distinct_positions
    fp sn sc ec sr er ie data (mp : mapping) :
  extract_cells_by_column_range load_workbook repr_str
      fp sn sc ec sr er ie = inr (data, mp) →
  ∃ wb ws,
    load_workbook fp = inr wb ∧ wb_getitem wb sn = inr ws ∧
    ∀ r1 c1 r2 c2,
      sr ≤ r1 ≤ effective_end_row ws er → sc ≤ c1 ≤ ec →
      sr ≤ r2 ≤ effective_end_row ws er → sc ≤ c2 ≤ ec →
      row_kept ws sc ec ie r1 = true → row_kept ws sc ec ie r2 = true →
      mp !! cell_address_of c1 r1 = mp !! cell_address_of c2 r2 →
      r1 = r2 ∧ c1 = c2.
Proof.
  intros (wb & ws & Hwb & _ & Hws & Hcols & Hok & -> & ->)%extract_inr.
  exists wb, ws. split; [done|]. split; [done|].
  intros r1 c1 r2 c2 Hr1 Hc1 Hr2 Hc2 Hk1 Hk2 Heq.
  rewrite !window_lookup in Heq by done.
  injection Heq as Hrow Hcol. split; [|lia].
  destruct (Z.lt_trichotomy r1 r2) as [Hlt|[->|Hlt]]; [|done|].
  - pose proof (counter_at_kept_lt ws sc ec ie sr r1 r2 ltac:(lia) Hk1). lia.
  - pose proof (counter_at_kept_lt ws sc ec ie sr r2 r1 ltac:(lia) Hk2). lia.
Qed.

(** X8. With [include_empty] true a successful call keeps the window as it
    is: the cell at row [r] and column [c] is mapped to
    [(r - start_row, c - start_column)], and the table row at
    [r - start_row] holds the values of sheet row [r]. *)
Theorem include_empty_positions fp sn sc ec sr er data (mp : mapping) :
  extract_cells_by_column_range load_workbook repr_str
      fp sn sc ec sr er true = inr (data, mp) →
  ∃ wb ws,
    load_workbook fp = inr wb ∧ wb_getitem wb sn = inr ws ∧
    ∀ r c, sr ≤ r ≤ effective_end_row ws er → sc ≤ c ≤ ec →
      (∃ letters, get_column_letter c = inr letters
                  ∧ mp !! (letters +:+ pretty r) = Some (r - sr, c - sc))
      ∧ data !! Z.to_nat (r - sr) = Some (row_values ws sc ec r).
Proof.
  intros (wb & ws & Hwb & _ & Hws & Hcols & Hok & -> & ->)%extract_inr.
  exists wb, ws. split; [done|]. split; [done|].
  intros r c Hr Hc. split.
  - destruct (scanned_cells_ok _ _ _ Hcols Hok r c) as [_ Hc'];
      [apply elem_of_py_range; lia | done |].
    exists (column_name c). split; [by apply get_column_letter_inr|].
    fold (cell_address_of c r).
    rewrite window_lookup by done.
    by rewrite counter_at_include_empty by lia.
  - rewrite <-(counter_at_include_empty ws sc ec sr r) by lia.
    apply kept_row_lookup; [done|]. unfold row_kept. by rewrite orb_true_r.
Qed.

(** X9. The two modes agree up to the empty rows: when the call with
    [include_empty] true returns, the call with [include_empty] false
    returns too, its table is the other table without the rows that hold
    nothing but [None], and its mapping has the same keys. *)
Theorem include_empty_false_filters
    fp sn sc ec sr er data (mp : mapping) :
  extract_cells_by_column_range load_workbook repr_str
      fp sn sc ec sr er true = inr (data, mp) →
  ∃ mp' : mapping,
    extract_cells_by_column_range load_workbook repr_str
      fp sn sc ec sr er false
    = inr (filter (λ row, ¬ Forall (λ v, v = VNone) row) data, mp')
    ∧ dom mp' = dom mp.
Proof.
  intros (wb & ws & Hwb & Hsheet & Hws & Hcols & Hok & -> & ->)%extract_inr.
  eexists. split.
  - apply extract_inr. exists wb, ws.
    split; [done|]. split; [done|]. split; [done|]. split; [done|].
    split; [done|]. split; [|reflexivity].
    rewrite filter_fmap. f_equal.
    rewrite (filter_all (λ r, row_kept ws sc ec true r)).
    + apply list_filter_iff. intros r. split.
      * intros Hnot.
        destruct (row_kept ws sc ec false r) eqn:Hkept; [done|].
        apply row_kept_false in Hkept as [_ Hall]. by destruct Hnot.
      * intros Hk Hall.
        assert (row_kept ws sc ec false r = false) as Hkept
          by (by apply row_kept_false).
        by rewrite Hkept in Hk.
    + apply Forall_forall. intros r _. unfold row_kept.
      by rewrite orb_true_r.
  - by rewrite !record_dom, !table_entries_keys.
Qed.

(** X10. With [include_empty] false a successful call never returns a row
    that holds nothing but [None]: every row of the table has a value that
    is not [None]. *)
Theorem no_empty_row_returned fp sn sc ec sr er data (mp : mapping) :
  extract_cells_by_column_range load_workbook repr_str
      fp sn sc ec sr er false = inr (data, mp) →
  ∀ i row, data !! i = Some row → ∃ v, v ∈ row ∧ v ≠ VNone.
Proof.
  intros (wb & ws & Hwb & _ & Hws & Hcols & Hok & -> & ->)%extract_inr.
  intros i row Hrow.
  apply list_lookup_fmap_Some in Hrow as (r & -> & Hr).
  apply list_elem_of_lookup_2, list_elem_of_filter in Hr as [Hk _].
  unfold row_kept in Hk. rewrite orb_false_r in Hk.
  apply Is_true_eq_true, existsb_exists in Hk as (v & Hv & Hnot).
  exists v. split; [by apply list_elem_of_In|]. by destruct v.
Qed.

(** X12. A window can be read in two parts: when the call on rows
    [start_row .. end_row] returns, so do the calls on [start_row .. m] and
    on [m + 1 .. end_row]; the table is the first table followed by the
    second, every entry of the first mapping is an entry of the whole
    mapping, and every entry of the second is one too, with its row index
    moved up by the number of rows of the first table. *)
Theorem window_concatenation fp sn sc ec sr m e ie data (mp : mapping) :
  sr - 1 ≤ m ≤ e →
  extract_cells_by_column_range load_workbook repr_str
      fp sn sc ec sr (Some e) ie = inr (data, mp) →
  ∃ d1 (m1 : mapping) d2 (m2 : mapping),
    extract_cells_by_column_range load_workbook repr_str
      fp sn sc ec sr (Some m) ie = inr (d1, m1)
    ∧ extract_cells_by_column_range load_workbook repr_str
        fp sn sc ec (m + 1) (Some e) ie = inr (d2, m2)
    ∧ data = d1 ++ d2
    ∧ m1 ⊆ mp
    ∧ ∀ key i j, m2 !! key = Some (i, j) →
        mp !! key = Some (i + Z.of_nat (length d1), j).
Proof.
  intros Hm (wb & ws & Hwb & Hsheet & Hws & Hcols & Hok & -> & ->)%extract_inr.
  simpl in *.
  pose proof (window_entries_NoDup ws sc ec ie sr e Hcols Hok) as Hnd.
  rewrite (py_range_app sr (m + 1) (e + 1)) in Hok, Hnd |- * by lia.
  apply Forall_app in Hok as [Hok1 Hok2].
  rewrite table_entries_app in Hnd |- *.
  do 4 eexists.
  split; [|split; [|split; [|split]]].
  - apply extract_inr. exists wb, ws. simpl. by repeat (split; [done|]).
  - apply extract_inr. exists wb, ws. simpl. by repeat (split; [done|]).
  - by rewrite filter_app, fmap_app.
  - apply map_subseteq_spec. intros key v Hkey.
    apply record_lookup_inv in Hkey as [Hin|Hin];
      [|by rewrite lookup_empty in Hin].
    apply record_lookup; [done|]. apply elem_of_app. by left.
  - intros key i j Hkey.
    apply record_lookup_inv in Hkey as [Hin|Hin];
      [|by rewrite lookup_empty in Hin].
    apply record_lookup; [done|]. apply elem_of_app. right.
    rewrite length_fmap, Z.add_0_l. by apply table_entries_shift.
Qed.

End Further.

(** ** [extract_cells_by_column_letters] *)

Section FurtherLetters.

Variable load_workbook : string → result workbook.
Variable column_index_from_string : string → result Z.
Variable repr_str : string → string.

(** X13. When both letters convert but the end column comes before the
    start column, as for "C" then "A", the call by letters raises the
    [ValueError] of the column range check, and its message shows the
    converted numbers, not the letters. *)
Theorem letters_reversed_range fp sn a b n1 n2 sr er ie wb :
  load_workbook fp = inr wb →
  sn ∈ sheetnames wb →
  column_index_from_string a = inr n1 →
  column_index_from_string b = inr n2 →
  n1 < 1 ∨ n2 < n1 →
  extract_cells_by_column_letters load_workbook
      column_index_from_string repr_str
      fp sn a b sr er ie
  = inl (ValueError ("Invalid column range: start_column=" +:+ pretty n1
                     +:+ ", end_column=" +:+ pretty n2)).
Proof.
  intros Hload Hsheet Ha Hb Hcols.
  destruct (wb_getitem_elem wb sn Hsheet) as [ws Hws].
  unfold extract_cells_by_column_letters. rewrite Ha, Hb. simpl.
  unfold extract_cells_by_column_range. rewrite Hload. simpl.
  rewrite bool_decide_false by (intros Hnot; by apply Hnot).
  rewrite Hws. simpl. by rewrite bool_decide_true.
Qed.

End FurtherLetters.

(** ** The further properties on the scenario *)

Lemma invalid_column_range_witness :
  by_range "data.xlsx" "Sheet1" 2 1 1 (Some 3) false
  = inl (ValueError ("Invalid column range: start_column=" +:+ pretty 2
                     +:+ ", end_column=" +:+ pretty 1)).
Proof.
  apply (invalid_column_range scenario_files quote_repr
           "data.xlsx" "Sheet1" 2 1 1 (Some 3) false scenario_workbook).
  - reflexivity.
  - refine (bool_decide_unpack _ _). vm_compute. exact I.
  - right. lia.
Defined.


Lemma start_row_below_one_witness :
  by_range "data.xlsx" "Sheet1" 1 2 0 (Some 3) false
  = inl (ValueError "Row or column values must be at least 1").
Proof.
  apply (start_row_below_one scenario_files quote_repr
           "data.xlsx" "Sheet1" 1 2 0 (Some 3) false
           scenario_workbook scenario_sheet).
  - reflexivity.
  - refine (bool_decide_unpack _ _). vm_compute. exact I.
  - reflexivity.
  - lia.
  - simpl. lia.
  - lia.
Defined.


Lemma cell_mapping_only_scanned_witness :
  ∃ wb ws,
    scenario_files "data.xlsx" = inr wb ∧ wb_getitem wb "Sheet1" = inr ws ∧
    ∀ key i j, scenario_mapping !! key = Some (i, j) →
      ∃ r c letters,
        1 ≤ r ≤ effective_end_row ws (Some 3) ∧ 1 ≤ c ≤ 2
        ∧ get_column_letter c = inr letters
        ∧ key = letters +:+ pretty r
        ∧ i = counter_at ws 1 2 false 1 r ∧ j = c - 1.
Proof.
  apply (cell_mapping_only_scanned scenario_files quote_repr
           "data.xlsx" "Sheet1" 1 2 1 (Some 3) false scenario_table).
  vm_compute. reflexivity.
Defined.

Lemma cell_mapping_bounds_witness :
  0 ≤ 2 ≤ Z.of_nat (length scenario_table) ∧ 0 ≤ 1 ≤ 2 - 1.
Proof.
  apply (cell_mapping_bounds scenario_files quote_repr
           "data.xlsx" "Sheet1" 1 2 1 (Some 3) false
           scenario_table scenario_mapping ltac:(vm_compute; reflexivity)
           "B3" 2 1).
  vm_compute. reflexivity.
Defined.

Lemma kept_cells_distinct_positions_witness :
  ∃ wb ws,
    scenario_files "data.xlsx" = inr wb ∧ wb_getitem wb "Sheet1" = inr ws ∧
    ∀ r1 c1 r2 c2,
      1 ≤ r1 ≤ effective_end_row ws (Some 3) → 1 ≤ c1 ≤ 2 →
      1 ≤ r2 ≤ effective_end_row ws (Some 3) → 1 ≤ c2 ≤ 2 →
      row_kept ws 1 2 false r1 = true → row_kept ws 1 2 false r2 = true →
      scenario_mapping !! cell_address_of c1 r1
      = scenario_mapping !! cell_address_of c2 r2 →
      r1 = r2 ∧ c1 = c2.
Proof.
  apply (kept_cells_distinct_positions scenario_files quote_repr
           "data.xlsx" "Sheet1" 1 2 1 (Some 3) false scenario_table).
  vm_compute. reflexivity.
Defined.

Lemma include_empty_positions_witness :
  ∃ wb ws,
    scenario_files "data.xlsx" = inr wb ∧ wb_getitem wb "Sheet1" = inr ws ∧
    ∀ r c, 1 ≤ r ≤ effective_end_row ws None → 1 ≤ c ≤ 2 →
      (∃ letters, get_column_letter c = inr letters
                  ∧ scenario_mapping !! (letters +:+ pretty r)
                    = Some (r - 1, c - 1))
      ∧ (scenario_table ++ [[VNone; VNone]]) !! Z.to_nat (r - 1)
        = Some (row_values ws 1 2 r).
Proof.
  apply (include_empty_positions scenario_files quote_repr
           "data.xlsx" "Sheet1" 1 2 1 None).
  vm_compute. reflexivity.
Defined.

Lemma include_empty_false_filters_witness :
  ∃ mp' : mapping,
    by_range "data.xlsx" "Sheet1" 1 2 1 None false
    = inr (filter (λ row, ¬ Forall (λ v, v = VNone) row)
                  (scenario_table ++ [[VNone; VNone]]), mp')
    ∧ dom mp' = dom scenario_mapping.
Proof.
  apply (include_empty_false_filters scenario_files quote_repr
           "data.xlsx" "Sheet1" 1 2 1 None).
  vm_compute. reflexivity.
Defined.

Lemma no_empty_row_returned_witness :
  ∃ v, v ∈ [VNumber 1; VNumber 2] ∧ v ≠ VNone.
Proof.
  apply (no_empty_row_returned scenario_files quote_repr
           "data.xlsx" "Sheet1" 1 2 1 (Some 3) scenario_table
           scenario_mapping ltac:(vm_compute; reflexivity) 1%nat).
  reflexivity.
Defined.

Lemma cell_addresses_distinct_witness : 2 = 2 ∧ 7 = 7.
Proof.
  apply (cell_addresses_distinct 2 7 2 7 "B" "B");
    [reflexivity | reflexivity | lia | lia | reflexivity].
Defined.

Lemma window_concatenation_witness :
  ∃ d1 (m1 : mapping) d2 (m2 : mapping),
    by_range "data.xlsx" "Sheet1" 1 2 1 (Some 1) false = inr (d1, m1)
    ∧ by_range "data.xlsx" "Sheet1" 1 2 (1 + 1) (Some 3) false = inr (d2, m2)
    ∧ scenario_table = d1 ++ d2
    ∧ m1 ⊆ scenario_mapping
    ∧ ∀ key i j, m2 !! key = Some (i, j) →
        scenario_mapping !! key = Some (i + Z.of_nat (length d1), j).
Proof.
  apply (window_concatenation scenario_files quote_repr
           "data.xlsx" "Sheet1" 1 2 1 1 3 false).
  - lia.
  - vm_compute. reflexivity.
Defined.

Lemma letters_reversed_range_witness :
  by_letters "data.xlsx" "Sheet1" "C" "A" 1 (Some 3) false
  = inl (ValueError ("Invalid column range: start_column=" +:+ pretty 3
                     +:+ ", end_column=" +:+ pretty 1)).
Proof.
  apply (letters_reversed_range scenario_files letters_to_index quote_repr
           "data.xlsx" "Sheet1" "C" "A" 3 1 1 (Some 3) false
           scenario_workbook).
  - reflexivity.
  - refine (bool_decide_unpack _ _). vm_compute. exact I.
  - reflexivity.
  - reflexivity.
  - right. lia.
Defined.
